(** * bottle_couchdb: the CouchDB plugin for Bottle

    A shallow embedding of [src/bottle_couchdb.py] and the properties of its
    plugin class [CouchDBPlugin].

    The plugin talks to two collaborators it does not own: the [couchdb]
    client library (a server constructor, the membership test, [create] and
    the subscript lookup of a server object) and the route callbacks of the
    host application.  Both are opaque here: the client library is an
    interface ([CouchDB]) whose operations act on an abstract world and may
    raise, and a route callback is a function of its arguments and the world.

    Python objects that the plugin shares by reference live in a store: the
    attributes of every [CouchDBPlugin] instance are kept in [objs], indexed
    by the address of the instance, so that a method which assigned to
    [self.keyword] would show up as a change of the store.  Every operation
    the plugin issues to the client library, and every call of a route
    function, is appended to a log. *)

From stdpp Require Import gmap strings list fin_maps.

Local Open Scope string_scope.

(** ** Python values *)

(** The values the plugin's settings range over: server names, database
    names and keywords are strings in every documented use, [None] is the
    default marker of [get_server] and [get_database], and nothing in the
    code stops a caller from passing something else (an integer stands for
    those).  Python's [==] on these values is structural equality. *)
Inductive pyval : Type :=
| VNone
| VStr (s : string)
| VInt (z : Z).

#[global] Instance pyval_eq_dec : EqDecision pyval.
Proof. solve_decision. Defined.

(** [v in l] for a list [l] of strings: only an equal string is a member. *)
Definition py_in (v : pyval) (l : list string) : bool :=
  match v with
  | VStr s => bool_decide (s ∈ l)
  | _ => false
  end.

(** [d.get(key, default)] on a dict with string keys. *)
Definition dict_get {V : Type} (d : gmap string V) (key : string) (default : V) : V :=
  match d !! key with
  | Some v => v
  | None => default
  end.

(** A value stored in a route's configuration: a mapping, or anything else,
    of which only the truth value matters to the plugin. *)
Inductive cfgval : Type :=
| CMapping (m : gmap string pyval)
| CScalar (truthy : bool).

(** Python truthiness: a dict is true when it is not empty. *)
Definition truthy_cfg (c : cfgval) : bool :=
  match c with
  | CMapping m => negb (bool_decide (m = ∅))
  | CScalar b => b
  end.

(** The attributes [__init__] stores on a plugin instance.  They live in a
    module of their own, so that [Plugin.keyword] reads as the attribute and
    [keyword] stays free for the parameters and local variables of that name. *)
Module Plugin.
Record CouchDBPlugin : Type := {
  server_name : pyval;
  db_name : pyval;
  keyword : pyval
}.
End Plugin.

Abbreviation CouchDBPlugin := Plugin.CouchDBPlugin.

(** Addresses of plugin instances. *)
Abbreviation loc := positive.

(** An element of [app.plugins]: an instance of [CouchDBPlugin], or a plugin
    of another class (which may well have a [keyword] attribute of its own). *)
Inductive plugin_ref : Type :=
| PCouchDB (l : loc)
| POther (other_keyword : option pyval).

Record App : Type := { plugins : list plugin_ref }.

(** What [inspect.getargspec] returns; the default values are not
    represented, the plugin reads component [0] only. *)
Record ArgSpec : Type := {
  args : list string;
  varargs : option string;
  keywords : option string
}.

(** The [couchdb] client library, as far as the plugin uses it. *)
Class CouchDB : Type := {
  World : Type;
  Exn : Type;
  Server : Type;
  Database : Type;
  (** [couchdb.Server(server_name)] *)
  couchdb_Server : pyval → World → (Exn + Server) * World;
  (** [db_name in server] *)
  server_contains : Server → pyval → World → (Exn + bool) * World;
  (** [server.create(db_name)] *)
  server_create : Server → pyval → World → (Exn + Database) * World;
  (** [server[db_name]] *)
  server_getitem : Server → pyval → World → (Exn + Database) * World
}.

(** ** The plugin *)

Section Methods.
Context `{api : CouchDB}.

(** The values a route callback receives and returns: plain values and
    database handles. *)
Inductive object : Type :=
| OVal (v : pyval)
| ODatabase (d : Database).

(** A Python function of the host application: its signature and what a
    call does.  The call gets the positional and the keyword arguments; the
    binding of arguments to parameters (and the [TypeError] of a call that
    does not fit) is part of [body]. *)
Record PyFunction : Type := {
  argspec : ArgSpec;
  body : list object → gmap string object → World → (Exn + object) * World
}.

(** A callable the plugin handles: a function of the application, or the
    closure [wrapper] that [apply] builds, with the variables it captures
    ([self], [server_name], [db_name], [keyword], [callback]). *)
Inductive callable : Type :=
| Func (f : PyFunction)
| Wrapper (self : loc) (server_name db_name keyword : pyval) (callback : callable).

(** The route object [apply] gets as [context]. *)
Record Route : Type := {
  context_callback : callable;
  context_config : gmap string cfgval
}.

Inductive pyexc : Type :=
| PluginError (msg : string)
| AttributeError
| TypeError
| Raised (e : Exn).

(** What the log records. *)
Inductive event : Type :=
| EConnect (server_name : pyval)
| EContains (server : Server) (db_name : pyval)
| ECreate (server : Server) (db_name : pyval)
| EGetitem (server : Server) (db_name : pyval)
| ECall (f : PyFunction) (args : list object) (kwargs : gmap string object).

Record state : Type := {
  objs : gmap loc CouchDBPlugin;
  world : World;
  log : list event
}.

(** Computations: they read and change the state, and return or raise. *)
Definition M (A : Type) : Type := state → (pyexc + A) * state.

Definition ret {A : Type} (a : A) : M A := λ st, (inr a, st).

Definition raise {A : Type} (e : pyexc) : M A := λ st, (inl e, st).

Definition bind {A B : Type} (m : M A) (k : A → M B) : M B :=
  λ st, match m st with
        | (inr a, st') => k a st'
        | (inl e, st') => (inl e, st')
        end.

#[global] Instance M_ret : MRet M := @ret.
#[global] Instance M_bind : MBind M := λ A B k m, bind m k.

(** [self.field]: an instance whose [__init__] never ran has no attributes. *)
Definition getattr {A : Type} (self : loc) (field : CouchDBPlugin → A) : M A :=
  λ st, match objs st !! self with
        | Some p => (inr (field p), st)
        | None => (inl AttributeError, st)
        end.

(** A call into the client library: it is logged, acts on the world, and
    what it raises is raised here. *)
Definition extern {A : Type} (ev : event) (op : World → (Exn + A) * World) : M A :=
  λ st, let '(r, w) := op (world st) in
        (match r with inl e => inl (Raised e) | inr a => inr a end,
         {| objs := objs st; world := w; log := log st ++ [ev] |}).

(** [def __init__(self, db_name, server_name='', keyword='db')]: an argument
    that is left out is [None] here and takes its default. *)
Definition __init__ (self : loc) (db_name : pyval) (server_name keyword : option pyval) : M unit :=
  λ st, (inr tt,
         {| objs := <[self := {| Plugin.server_name := default (VStr "") server_name;
                                 Plugin.db_name := db_name;
                                 Plugin.keyword := default (VStr "db") keyword |}]> (objs st);
            world := world st; log := log st |}).

(** [def get_server(self, server_name=None)] *)
Definition get_server (self : loc) (server_name : pyval) : M Server :=
  server_name ← (if decide (server_name = VNone)
                 then getattr self Plugin.server_name
                 else mret server_name);
  extern (EConnect server_name) (couchdb_Server server_name).

(** [def get_database(self, db_name=None, server=None, server_name=None)] *)
Definition get_database (self : loc) (db_name : pyval) (server : option Server)
    (server_name : pyval) : M Database :=
  db_name ← (if decide (db_name = VNone)
             then getattr self Plugin.db_name
             else mret db_name);
  server ← (match server with
            | None => get_server self server_name
            | Some s => mret s
            end);
  present ← extern (EContains server db_name) (server_contains server db_name);
  if negb present
  then extern (ECreate server db_name) (server_create server db_name)
  else extern (EGetitem server db_name) (server_getitem server db_name).

(** The body of the loop of [setup] over [app.plugins]: an element that is
    not a [CouchDBPlugin] is skipped, one whose keyword equals that of [self]
    ends the loop with a [PluginError]. *)
Fixpoint setup_loop (self : loc) (others : list plugin_ref) : M unit :=
  match others with
  | [] => mret tt
  | POther _ :: rest => setup_loop self rest
  | PCouchDB other :: rest =>
      other_keyword ← getattr other Plugin.keyword;
      self_keyword ← getattr self Plugin.keyword;
      if decide (other_keyword = self_keyword)
      then raise (PluginError
             "Found another couchdb plugin with conflicting settings (non-unique keyword).")
      else setup_loop self rest
  end.

(** [def setup(self, app)] *)
Definition setup (self : loc) (app : App) : M unit :=
  setup_loop self (plugins app).

(** [inspect.getargspec]: the signature of a function is its own, that of
    the closure is [wrapper( *args, **kwargs)]. *)
Definition getargspec (c : callable) : ArgSpec :=
  match c with
  | Func f => argspec f
  | Wrapper _ _ _ _ _ =>
      {| args := []; varargs := Some "args"; keywords := Some "kwargs" |}
  end.

(** [context.config.get('couchdb') or {}] *)
Definition route_conf (context : Route) : cfgval :=
  match context_config context !! "couchdb" with
  | Some c => if truthy_cfg c then c else CMapping ∅
  | None => CMapping ∅
  end.

(** [conf.get(key, default)]: the method is looked up first (and found on a
    mapping only), then the default is evaluated. *)
Definition conf_get (conf : cfgval) (key : string) (default : M pyval) : M pyval :=
  match conf with
  | CMapping m => d ← default; mret (dict_get m key d)
  | CScalar _ => raise AttributeError
  end.

(** [def apply(self, callback, context)] *)
Definition apply (self : loc) (callback : callable) (context : Route) : M callable :=
  let conf := route_conf context in
  server_name ← conf_get conf "server_name" (getattr self Plugin.server_name);
  db_name ← conf_get conf "db_name" (getattr self Plugin.db_name);
  keyword ← conf_get conf "keyword" (getattr self Plugin.keyword);
  let args := args (getargspec (context_callback context)) in
  if negb (py_in keyword args)
  then mret callback
  else mret (Wrapper self server_name db_name keyword callback).

(** Calling a callable.  A function of the application is logged and run on
    the world.  The closure runs the body of [wrapper]; Python refuses a call
    [callback( *args, **kwargs)] whose [kwargs] has a key that is not a string
    with a [TypeError]. *)
Fixpoint invoke (c : callable) (args : list object) (kwargs : gmap string object) : M object :=
  match c with
  | Func f =>
      λ st, let '(r, w) := body f args kwargs (world st) in
            (match r with inl e => inl (Raised e) | inr v => inr v end,
             {| objs := objs st; world := w; log := log st ++ [ECall f args kwargs] |})
  | Wrapper self server_name db_name keyword callback =>
      couch ← get_server self server_name;
      db ← get_database self db_name (Some couch) VNone;
      match keyword with
      | VStr k => invoke callback args (<[k := ODatabase db]> kwargs)
      | _ => raise TypeError
      end
  end.

(** [def close(self): pass] *)
Definition close (self : loc) : M unit := mret tt.

End Methods.

(** ** Vocabulary of the statements *)

(** A string with nothing but white space in it, the empty string included
    (what [s.strip() == ''] tests). *)
Definition blank (s : string) : bool :=
  forallb (λ a, let n := Ascii.nat_of_ascii a in
                (n =? 32)%nat || ((9 <=? n)%nat && (n <=? 13)%nat))
          (String.list_ascii_of_string s).

Section Vocabulary.
Context `{api : CouchDB}.

(** The value an argument stands for in [get_server] and [get_database]:
    [None] means the attribute of the plugin. *)
Definition effective (v attr : pyval) : pyval :=
  if decide (v = VNone) then attr else v.

(** The two calls at the head of [wrapper]. *)
Definition resolve (self : loc) (server_name db_name : pyval) : M Database :=
  couch ← get_server self server_name;
  get_database self db_name (Some couch) VNone.

(** The state after the client library has been called: same objects, the
    world it left, the events added to the log. *)
Definition after (st : state) (w : World) (evs : list event) : state :=
  {| objs := objs st; world := w; log := log st ++ evs |}.

(** What a raised exception of the application or the library looks like
    to the caller of the plugin. *)
Definition lift_result {A : Type} (r : Exn + A) : pyexc + A :=
  match r with
  | inl e => inl (Raised e)
  | inr a => inr a
  end.

(** One of the operations of a resource resolution raises [e]: the connect,
    the membership test, the create of an absent database or the lookup of a
    present one.  The relation gives the world the failing operation leaves
    and the operations issued up to and including it. *)
Inductive resolution_raises (sn dbn : pyval) (w : World) : Exn → World → list event → Prop :=
| connect_raises e w1 :
    couchdb_Server sn w = (inl e, w1) →
    resolution_raises sn dbn w e w1 [EConnect sn]
| contains_raises srv w1 e w2 :
    couchdb_Server sn w = (inr srv, w1) →
    server_contains srv dbn w1 = (inl e, w2) →
    resolution_raises sn dbn w e w2 [EConnect sn; EContains srv dbn]
| create_raises srv w1 w2 e w3 :
    couchdb_Server sn w = (inr srv, w1) →
    server_contains srv dbn w1 = (inr false, w2) →
    server_create srv dbn w2 = (inl e, w3) →
    resolution_raises sn dbn w e w3 [EConnect sn; EContains srv dbn; ECreate srv dbn]
| getitem_raises srv w1 w2 e w3 :
    couchdb_Server sn w = (inr srv, w1) →
    server_contains srv dbn w1 = (inr true, w2) →
    server_getitem srv dbn w2 = (inl e, w3) →
    resolution_raises sn dbn w e w3 [EConnect sn; EContains srv dbn; EGetitem srv dbn].

(** An event is a call of a function of the application. *)
Definition is_call (ev : event) : Prop :=
  match ev with
  | ECall _ _ _ => True
  | _ => False
  end.

(** A list of events is what one resolution can add to the log: an initial
    part of connect, membership test, and then a create or a lookup on the same
    server and name. *)
Definition resolution_trace (evs : list event) : Prop :=
  evs = [] ∨
  ∃ s, evs = [EConnect s] ∨
  ∃ srv d, evs = [EConnect s; EContains srv d] ∨
           evs = [EConnect s; EContains srv d; ECreate srv d] ∨
           evs = [EConnect s; EContains srv d; EGetitem srv d].

(** An event is a construction of a server object. *)
Definition is_connect (ev : event) : Prop :=
  match ev with
  | EConnect _ => True
  | _ => False
  end.

(** The state with another store of plugin attributes. *)
Definition with_objs (o : gmap loc CouchDBPlugin) (st : state) : state :=
  {| objs := o; world := world st; log := log st |}.

(** A computation leaves the attributes of every plugin instance alone. *)
Definition keeps_objs {A : Type} (m : M A) : Prop :=
  ∀ st, objs (m st).2 = objs st.

(** Some installed [CouchDBPlugin] has the keyword [kw]. *)
Definition conflicting (st : state) (others : list plugin_ref) (kw : pyval) : Prop :=
  ∃ l o, PCouchDB l ∈ others ∧ objs st !! l = Some o ∧ Plugin.keyword o = kw.

(** Every installed [CouchDBPlugin] has been constructed. *)
Definition constructed (st : state) (others : list plugin_ref) : Prop :=
  ∀ l, PCouchDB l ∈ others → is_Some (objs st !! l).

End Vocabulary.

(** ** A small client library to run the plugin on *)

(** One server with a list of database names.  A database can be created
    once and under a non-empty name; a lookup of an absent one fails. *)
Module Mock.

Inductive error : Type :=
| ResourceNotFound
| PreconditionFailed
| ServerError
| BadCall.

Definition connect (v : pyval) (w : list string) : (error + string) * list string :=
  match v with
  | VStr url => (inr url, w)
  | _ => (inl ServerError, w)
  end.

Definition contains (srv : string) (v : pyval) (w : list string) : (error + bool) * list string :=
  match v with
  | VStr n => (inr (bool_decide (n ∈ w)), w)
  | _ => (inl ServerError, w)
  end.

Definition create (srv : string) (v : pyval) (w : list string)
    : (error + string * string) * list string :=
  match v with
  | VStr n =>
      if bool_decide (n ∈ w) then (inl PreconditionFailed, w)
      else if bool_decide (n = "") then (inl ServerError, w)
      else (inr (srv, n), n :: w)
  | _ => (inl ServerError, w)
  end.

Definition getitem (srv : string) (v : pyval) (w : list string)
    : (error + string * string) * list string :=
  match v with
  | VStr n =>
      if bool_decide (n ∈ w) then (inr (srv, n), w) else (inl ResourceNotFound, w)
  | _ => (inl ServerError, w)
  end.

#[global] Instance couch : CouchDB := {|
  World := list string;
  Exn := error;
  Server := string;
  Database := string * string;
  couchdb_Server := connect;
  server_contains := contains;
  server_create := create;
  server_getitem := getitem
|}.

(** [def show(item, db)]: returns the handle it was given. *)
Definition show : PyFunction := {|
  argspec := {| args := ["item"; "db"]; varargs := None; keywords := None |};
  body := λ args kwargs w,
    match kwargs !! "db" with
    | Some o => (inr o, w)
    | None => (inl BadCall, w)
    end
|}.

(** [def index( **db)]: a catch-all that happens to be called [db]. *)
Definition index : PyFunction := {|
  argspec := {| args := []; varargs := None; keywords := Some "db" |};
  body := λ args kwargs w, (inr (OVal VNone), w)
|}.

Definition url : string := "http://localhost:5984".

(** The handle of [my_db] on that server. *)
Definition handle : string * string := (url, "my_db").

(** [Plugin('my_db', server_name='http://localhost:5984')] at address 1. *)
Definition my_plugin : CouchDBPlugin := {|
  Plugin.server_name := VStr url;
  Plugin.db_name := VStr "my_db";
  Plugin.keyword := VStr "db"
|}.

Definition st0 : state := {| objs := {[ 1%positive := my_plugin ]}; world := []; log := [] |}.

Definition route (f : PyFunction) : Route :=
  {| context_callback := Func f; context_config := ∅ |}.

(** The same route with [couchdb={'keyword': 'item'}]. *)
Definition route_item (f : PyFunction) : Route :=
  {| context_callback := Func f;
     context_config := {[ "couchdb" := CMapping {[ "keyword" := VStr "item" ]} ]} |}.

(** The positional arguments of a request for item 42. *)
Definition item : list object := [OVal (VStr "42")].

(** A second plugin, [Plugin('other_db', keyword='db2')], at address 2. *)
Definition second_plugin : CouchDBPlugin := {|
  Plugin.server_name := VStr "";
  Plugin.db_name := VStr "other_db";
  Plugin.keyword := VStr "db2"
|}.

Definition st2 : state :=
  {| objs := {[ 1%positive := my_plugin; 2%positive := second_plugin ]};
     world := []; log := [] |}.

(** An application with a plugin of another class that injects [db2] and
    the first plugin installed. *)
Definition app : App := {| plugins := [POther (Some (VStr "db2")); PCouchDB 1] |}.

End Mock.

(** ** Properties *)

Section Properties.
Context `{api : CouchDB}.

Implicit Types (self : loc) (p : CouchDBPlugin) (st : state) (c callback : callable).
Implicit Types (args : list object) (kwargs : gmap string object).

Ltac unfold_M :=
  unfold mbind, M_bind, bind, mret, M_ret, ret, raise, getattr, extern in *.

(** *** The monad *)

Lemma bind_inr {A B : Type} (m : M A) (k : A → M B) st a st' :
  m st = (inr a, st') → (x ← m; k x) st = k a st'.
Proof. intros H. unfold_M. by rewrite H. Qed.

Lemma bind_inl {A B : Type} (m : M A) (k : A → M B) st e st' :
  m st = (inl e, st') → (x ← m; k x) st = (inl e, st').
Proof. intros H. unfold_M. by rewrite H. Qed.

Lemma getattr_run {A : Type} self (field : CouchDBPlugin → A) p st :
  objs st !! self = Some p → getattr self field st = (inr (field p), st).
Proof. intros H. unfold getattr. by rewrite H. Qed.

Lemma extern_inr {A : Type} ev (op : World → (Exn + A) * World) st a w :
  op (world st) = (inr a, w) → extern ev op st = (inr a, after st w [ev]).
Proof. intros H. unfold extern. by rewrite H. Qed.

Lemma extern_inl {A : Type} ev (op : World → (Exn + A) * World) st e w :
  op (world st) = (inl e, w) → extern ev op st = (inl (Raised e), after st w [ev]).
Proof. intros H. unfold extern. by rewrite H. Qed.

Lemma after_after st w evs w' evs' :
  after (after st w evs) w' evs' = after st w' (evs ++ evs').
Proof. unfold after. simpl. by rewrite <- app_assoc. Qed.

(** *** The resolution of the handle *)

(** An argument that is [None] is replaced by the attribute; the server is
    then constructed from the name. *)
Lemma get_server_run self p sn st :
  objs st !! self = Some p →
  get_server self sn st =
  extern (EConnect (effective sn (Plugin.server_name p)))
         (couchdb_Server (effective sn (Plugin.server_name p))) st.
Proof.
  intros Hp. unfold get_server, effective.
  destruct (decide (sn = VNone)).
  - by rewrite (bind_inr _ _ _ _ _ (getattr_run self _ p st Hp)).
  - done.
Qed.

(** With a server given, [get_database] tests the membership of the name and
    creates or looks up accordingly. *)
Lemma get_database_run self p dbn srv sn st :
  objs st !! self = Some p →
  get_database self dbn (Some srv) sn st =
  (let d := effective dbn (Plugin.db_name p) in
   present ← extern (EContains srv d) (server_contains srv d);
   if negb present
   then extern (ECreate srv d) (server_create srv d)
   else extern (EGetitem srv d) (server_getitem srv d)) st.
Proof.
  intros Hp. unfold get_database, effective.
  destruct (decide (dbn = VNone)).
  - by rewrite (bind_inr _ _ _ _ _ (getattr_run self _ p st Hp)).
  - done.
Qed.

(** A resolution whose operations all return. *)
Lemma resolve_returns self p sn dbn st srv w1 present w2 db w3 :
  objs st !! self = Some p →
  let s := effective sn (Plugin.server_name p) in
  let d := effective dbn (Plugin.db_name p) in
  couchdb_Server s (world st) = (inr srv, w1) →
  server_contains srv d w1 = (inr present, w2) →
  (if present then server_getitem srv d w2 else server_create srv d w2) = (inr db, w3) →
  resolve self sn dbn st =
  (inr db, after st w3 [EConnect s; EContains srv d;
                        if present then EGetitem srv d else ECreate srv d]).
Proof.
  intros Hp s d Hs Hc Hd. unfold resolve.
  rewrite (bind_inr _ _ st srv (after st w1 [EConnect s])).
  2:{ rewrite (get_server_run self p) by done. by apply extern_inr. }
  rewrite (get_database_run self p) by done. fold d.
  cbv zeta.
  rewrite (bind_inr _ _ _ present (after st w2 [EConnect s; EContains srv d])).
  2:{ rewrite (extern_inr _ _ _ present w2) by done. by rewrite after_after. }
  destruct present; cbn [negb].
  - rewrite (extern_inr _ _ _ db w3) by done. by rewrite after_after.
  - rewrite (extern_inr _ _ _ db w3) by done. by rewrite after_after.
Qed.

(** A resolution one of whose operations raises. *)
Lemma resolve_raises self p sn dbn st e w evs :
  objs st !! self = Some p →
  resolution_raises (effective sn (Plugin.server_name p))
                    (effective dbn (Plugin.db_name p)) (world st) e w evs →
  resolve self sn dbn st = (inl (Raised e), after st w evs).
Proof.
  intros Hp Hr. unfold resolve.
  set (s := effective sn (Plugin.server_name p)) in *.
  set (d := effective dbn (Plugin.db_name p)) in *.
  destruct Hr as [e w1 Hs | srv w1 e w2 Hs Hc | srv w1 w2 e w3 Hs Hc Hd
                  | srv w1 w2 e w3 Hs Hc Hd].
  - apply bind_inl. rewrite (get_server_run self p) by done. by apply extern_inl.
  - rewrite (bind_inr _ _ st srv (after st w1 [EConnect s])).
    2:{ rewrite (get_server_run self p) by done. by apply extern_inr. }
    rewrite (get_database_run self p) by done. fold d. cbv zeta.
    rewrite (bind_inl _ _ _ (Raised e) (after st w2 [EConnect s; EContains srv d])); [done|].
    rewrite (extern_inl _ _ _ e w2) by done. by rewrite after_after.
  - rewrite (bind_inr _ _ st srv (after st w1 [EConnect s])).
    2:{ rewrite (get_server_run self p) by done. by apply extern_inr. }
    rewrite (get_database_run self p) by done. fold d. cbv zeta.
    rewrite (bind_inr _ _ _ false (after st w2 [EConnect s; EContains srv d])).
    2:{ rewrite (extern_inr _ _ _ false w2) by done. by rewrite after_after. }
    cbn [negb].
    rewrite (extern_inl _ _ _ e w3) by done. by rewrite after_after.
  - rewrite (bind_inr _ _ st srv (after st w1 [EConnect s])).
    2:{ rewrite (get_server_run self p) by done. by apply extern_inr. }
    rewrite (get_database_run self p) by done. fold d. cbv zeta.
    rewrite (bind_inr _ _ _ true (after st w2 [EConnect s; EContains srv d])).
    2:{ rewrite (extern_inr _ _ _ true w2) by done. by rewrite after_after. }
    cbn [negb].
    rewrite (extern_inl _ _ _ e w3) by done. by rewrite after_after.
Qed.

(** The closure runs the resolution and, when it returns a handle, calls
    [callback] with the handle stored under the keyword. *)
Lemma invoke_wrapper self sn dbn k callback args kwargs st :
  invoke (Wrapper self sn dbn (VStr k) callback) args kwargs st =
  match resolve self sn dbn st with
  | (inr db, st') => invoke callback args (<[k := ODatabase db]> kwargs) st'
  | (inl e, st') => (inl e, st')
  end.
Proof.
  simpl. unfold resolve. unfold_M.
  destruct (get_server self sn st) as [[e|couch] st1]; [done|].
  by destruct (get_database self dbn (Some couch) VNone st1) as [[e|db] st2].
Qed.

Lemma invoke_wrapper_raises self sn dbn kw callback args kwargs st e st' :
  resolve self sn dbn st = (inl e, st') →
  invoke (Wrapper self sn dbn kw callback) args kwargs st = (inl e, st').
Proof.
  simpl. unfold resolve. unfold_M.
  destruct (get_server self sn st) as [[e1|couch] st1]; [by intros [= -> ->]|].
  destruct (get_database self dbn (Some couch) VNone st1) as [[e2|db] st2];
    [by intros [= -> ->]|discriminate].
Qed.

(** *** Binding a route *)

(** What [apply] returns for a constructed plugin and a route whose
    [couchdb] setting is a mapping, falsy or missing. *)
Lemma apply_run self p callback context conf st :
  objs st !! self = Some p →
  route_conf context = CMapping conf →
  apply self callback context st =
  (inr (let keyword := dict_get conf "keyword" (Plugin.keyword p) in
        if py_in keyword (args (getargspec (context_callback context)))
        then Wrapper self (dict_get conf "server_name" (Plugin.server_name p))
                     (dict_get conf "db_name" (Plugin.db_name p)) keyword callback
        else callback), st).
Proof.
  intros Hp Hconf. unfold apply. rewrite Hconf. unfold conf_get.
  unfold_M. cbv beta zeta. rewrite !Hp.
  by destruct (py_in _ _).
Qed.

(** A function of the application is called on the world as it is, and the
    call is the one event logged. *)
Lemma invoke_func (f : PyFunction) args kwargs st :
  invoke (Func f) args kwargs st =
  (lift_result (body f args kwargs (world st)).1,
   after st (body f args kwargs (world st)).2 [ECall f args kwargs]).
Proof. simpl. by destruct (body f args kwargs (world st)) as [[e|v] w]. Qed.

(** C1: for a callback whose parameters contain the effective keyword, [apply]
    returns a callable each call of which issues one connect, then one
    membership test of the database name on the server obtained, then a lookup
    if the name is present and a create if it is absent, and then calls the
    callback with the handle obtained stored under the keyword, whatever the
    caller had passed under it. *)
Theorem wrapper_resolves_once_and_injects self p callback context conf k st :
  objs st !! self = Some p →
  route_conf context = CMapping conf →
  dict_get conf "keyword" (Plugin.keyword p) = VStr k →
  k ∈ args (getargspec (context_callback context)) →
  ∃ wrapper,
    apply self callback context st = (inr wrapper, st) ∧
    ∀ st1 srv w1 present w2 db w3 args kwargs,
      let s := effective (dict_get conf "server_name" (Plugin.server_name p))
                         (Plugin.server_name p) in
      let d := effective (dict_get conf "db_name" (Plugin.db_name p))
                         (Plugin.db_name p) in
      objs st1 !! self = Some p →
      couchdb_Server s (world st1) = (inr srv, w1) →
      server_contains srv d w1 = (inr present, w2) →
      (if present then server_getitem srv d w2 else server_create srv d w2)
        = (inr db, w3) →
      invoke wrapper args kwargs st1 =
        invoke callback args (<[k := ODatabase db]> kwargs)
          (after st1 w3 [EConnect s; EContains srv d;
                         if present then EGetitem srv d else ECreate srv d]) ∧
      <[k := ODatabase db]> kwargs !! k = Some (ODatabase db).
Proof.
  intros Hp Hconf Hk Hin. eexists. split.
  - rewrite (apply_run self p callback context conf) by done.
    cbv zeta. rewrite Hk. unfold py_in. by rewrite bool_decide_eq_true_2.
  - intros st1 srv w1 present w2 db w3 args0 kwargs s d Hp1 Hs Hc Hd. split.
    + rewrite invoke_wrapper.
      by rewrite (resolve_returns self p _ _ st1 srv w1 present w2 db w3).
    + apply lookup_insert_eq.
Qed.

(** C2: for a route whose original callback has no parameter of the effective
    keyword's name, [apply] returns the very callback it was given and issues
    nothing; calling what it returned is calling that callback, so for a
    function of the application the call is the one event logged and the world
    changes as the function changes it. *)
Theorem apply_returns_callback_without_keyword self p callback context conf st :
  objs st !! self = Some p →
  route_conf context = CMapping conf →
  py_in (dict_get conf "keyword" (Plugin.keyword p))
        (args (getargspec (context_callback context))) = false →
  ∃ bound,
    apply self callback context st = (inr bound, st) ∧
    bound = callback ∧
    ∀ f args kwargs st1,
      callback = Func f →
      invoke bound args kwargs st1 =
        (lift_result (body f args kwargs (world st1)).1,
         after st1 (body f args kwargs (world st1)).2 [ECall f args kwargs]).
Proof.
  intros Hp Hconf Hk. exists callback. split; [|split; [done|]].
  - rewrite (apply_run self p callback context conf) by done.
    cbv zeta. by rewrite Hk.
  - intros f args0 kwargs st1 ->. apply invoke_func.
Qed.

(** C4: a call of the closure whose membership test says absent creates the
    database and goes on with the handle [create] returned; one whose test
    says present looks the database up; the handle obtained is the one the
    callback receives under the keyword. *)
Theorem wrapper_creates_or_fetches self p sn dbn k callback args kwargs st srv w1 w2 db w3 :
  objs st !! self = Some p →
  let s := effective sn (Plugin.server_name p) in
  let d := effective dbn (Plugin.db_name p) in
  couchdb_Server s (world st) = (inr srv, w1) →
  (server_contains srv d w1 = (inr false, w2) →
   server_create srv d w2 = (inr db, w3) →
   invoke (Wrapper self sn dbn (VStr k) callback) args kwargs st =
     invoke callback args (<[k := ODatabase db]> kwargs)
       (after st w3 [EConnect s; EContains srv d; ECreate srv d])) ∧
  (server_contains srv d w1 = (inr true, w2) →
   server_getitem srv d w2 = (inr db, w3) →
   invoke (Wrapper self sn dbn (VStr k) callback) args kwargs st =
     invoke callback args (<[k := ODatabase db]> kwargs)
       (after st w3 [EConnect s; EContains srv d; EGetitem srv d])) ∧
  <[k := ODatabase db]> kwargs !! k = Some (ODatabase db).
Proof.
  intros Hp s d Hs. split; [|split].
  - intros Hc Hd. rewrite invoke_wrapper.
    by rewrite (resolve_returns self p sn dbn st srv w1 false w2 db w3).
  - intros Hc Hd. rewrite invoke_wrapper.
    by rewrite (resolve_returns self p sn dbn st srv w1 true w2 db w3).
  - apply lookup_insert_eq.
Qed.

(** A name that is [None] when the closure is called, because the route's
    mapping stores [None] under the key or because the attribute itself is
    [None], is read from the plugin at that moment; any other name is used as
    it is. *)
Lemma effective_none attr : effective VNone attr = attr.
Proof. done. Qed.

Lemma effective_value v attr : v ≠ VNone → effective v attr = v.
Proof. intros Hv. unfold effective. by destruct (decide (v = VNone)). Qed.

(** C5: with a [couchdb] mapping in the route's configuration, each of
    [server_name], [db_name] and [keyword] is the value stored in the mapping
    when the key is there and the attribute of the plugin when it is not, each
    on its own.  A mapping with the key [keyword] alone leaves the other two at
    the attributes; its keyword is the name looked for among the parameters of
    the original callback and the name the handle is passed under. *)
Theorem apply_route_settings self p callback context conf st :
  objs st !! self = Some p →
  context_config context !! "couchdb" = Some (CMapping conf) →
  let field (key : string) (attr : pyval) :=
    match conf !! key with Some v => v | None => attr end in
  let formal := args (getargspec (context_callback context)) in
  apply self callback context st =
    (inr (if py_in (field "keyword" (Plugin.keyword p)) formal
          then Wrapper self (field "server_name" (Plugin.server_name p))
                       (field "db_name" (Plugin.db_name p))
                       (field "keyword" (Plugin.keyword p)) callback
          else callback), st) ∧
  ∀ k, conf = {[ "keyword" := VStr k ]} →
    (k ∉ formal → apply self callback context st = (inr callback, st)) ∧
    (k ∈ formal →
     ∃ wrapper,
       apply self callback context st = (inr wrapper, st) ∧
       ∀ args kwargs st1 db st2,
         resolve self (Plugin.server_name p) (Plugin.db_name p) st1 = (inr db, st2) →
         invoke wrapper args kwargs st1 =
           invoke callback args (<[k := ODatabase db]> kwargs) st2).
Proof.
  intros Hp Hcfg field formal.
  assert (Hconf : route_conf context = CMapping conf).
  { unfold route_conf. rewrite Hcfg. simpl. case_bool_decide as Hm; [|done].
    simpl. by rewrite Hm. }
  assert (Happ := apply_run self p callback context conf st Hp Hconf).
  cbv zeta in Happ. unfold dict_get in Happ. fold formal in Happ.
  split; [exact Happ|].
  intros k ->. rewrite Happ.
  rewrite lookup_singleton_eq.
  rewrite !lookup_singleton_ne by done.
  unfold py_in. split; intros Hk.
  - by rewrite bool_decide_eq_false_2.
  - rewrite bool_decide_eq_true_2 by done. eexists. split; [done|].
    intros args0 kwargs st1 db st2 Hr. rewrite invoke_wrapper. by rewrite Hr.
Qed.

(** C6: whatever the positional and keyword arguments of a call of the
    closure, when the resolution returns a handle the callback is called with
    the same positional arguments and with keyword arguments that differ from
    the caller's under the keyword only, and what the callback returns or
    raises, and the state it leaves, is the outcome of the call of the closure;
    when the resolution raises, that is the outcome. *)
Theorem wrapper_passes_arguments_through self sn dbn k callback args kwargs st :
  match resolve self sn dbn st with
  | (inr db, st') =>
      let kwargs' := <[k := ODatabase db]> kwargs in
      invoke (Wrapper self sn dbn (VStr k) callback) args kwargs st =
        invoke callback args kwargs' st' ∧
      (∀ k', k' ≠ k → kwargs' !! k' = kwargs !! k') ∧
      (∀ f, callback = Func f →
         invoke (Wrapper self sn dbn (VStr k) callback) args kwargs st =
           (lift_result (body f args kwargs' (world st')).1,
            after st' (body f args kwargs' (world st')).2 [ECall f args kwargs']))
  | (inl e, st') =>
      invoke (Wrapper self sn dbn (VStr k) callback) args kwargs st = (inl e, st')
  end.
Proof.
  rewrite invoke_wrapper.
  destruct (resolve self sn dbn st) as [[e|db] st']; [done|].
  cbv zeta. split; [done|]. split.
  - intros k' Hk'. by rewrite lookup_insert_ne.
  - intros f ->. apply invoke_func.
Qed.

(** C7: when the connect, the membership test, the create or the lookup of a
    call of the closure raises, the call raises that exception, the state is
    the one the failing operation left, and no function of the application has
    been called. *)
Theorem wrapper_propagates_resource_errors self p sn dbn kw callback args kwargs st e w evs :
  objs st !! self = Some p →
  resolution_raises (effective sn (Plugin.server_name p))
                    (effective dbn (Plugin.db_name p)) (world st) e w evs →
  invoke (Wrapper self sn dbn kw callback) args kwargs st =
    (inl (Raised e), after st w evs) ∧
  Forall (λ ev, ¬ is_call ev) evs.
Proof.
  intros Hp Hr. split.
  - apply invoke_wrapper_raises. by apply (resolve_raises self p).
  - destruct Hr; repeat constructor; simpl; tauto.
Qed.

(** C10: the test of [apply] reads the named parameters of the original
    callback and nothing else.  A callback with a catch-all keyword parameter
    (whatever its name, the keyword included) and no named parameter of the
    keyword's name is returned as it is, as is the callback of any route with
    the same configuration and the same named parameters; a call passes the
    caller's keyword arguments on unchanged. *)
Theorem apply_ignores_catch_all self p callback context conf k kwname st :
  objs st !! self = Some p →
  route_conf context = CMapping conf →
  dict_get conf "keyword" (Plugin.keyword p) = VStr k →
  keywords (getargspec (context_callback context)) = Some kwname →
  k ∉ args (getargspec (context_callback context)) →
  apply self callback context st = (inr callback, st) ∧
  (∀ callback' context',
     context_config context' = context_config context →
     args (getargspec (context_callback context')) =
       args (getargspec (context_callback context)) →
     apply self callback' context' st = (inr callback', st)) ∧
  (∀ f args kwargs st1,
     callback = Func f →
     invoke callback args kwargs st1 =
       (lift_result (body f args kwargs (world st1)).1,
        after st1 (body f args kwargs (world st1)).2 [ECall f args kwargs])).
Proof.
  intros Hp Hconf Hk _ Hnin.
  assert (Hpy : py_in (VStr k) (args (getargspec (context_callback context))) = false).
  { unfold py_in. by rewrite bool_decide_eq_false_2. }
  split; [|split].
  - rewrite (apply_run self p callback context conf) by done.
    cbv zeta. by rewrite Hk, Hpy.
  - intros callback' context' Hcfg Hargs.
    rewrite (apply_run self p callback' context' conf); [|done|].
    + cbv zeta. by rewrite Hk, Hargs, Hpy.
    + unfold route_conf in *. by rewrite Hcfg.
  - intros f args0 kwargs st1 ->. apply invoke_func.
Qed.

(** *** Installing *)

(** The loop either returns or raises [PluginError], and leaves the state. *)
Lemma setup_loop_returns self p st others :
  objs st !! self = Some p →
  constructed st others →
  ¬ conflicting st others (Plugin.keyword p) →
  setup_loop self others st = (inr tt, st).
Proof.
  intros Hp. induction others as [|[other|kw] rest IH]; intros Hc Hn; simpl.
  - done.
  - destruct (Hc other) as [o Ho]; [by left|].
    rewrite (bind_inr _ _ _ _ _ (getattr_run other _ o st Ho)).
    rewrite (bind_inr _ _ _ _ _ (getattr_run self _ p st Hp)).
    destruct (decide (Plugin.keyword o = Plugin.keyword p)) as [Heq|Hne].
    + exfalso. apply Hn. exists other, o. split; [by left|done].
    + apply IH.
      * intros l Hl. apply Hc. by right.
      * intros (l & o' & Hl & Ho' & Hk). apply Hn. exists l, o'.
        split; [by right|done].
  - apply IH.
    + intros l Hl. apply Hc. by right.
    + intros (l & o' & Hl & Ho' & Hk). apply Hn. exists l, o'.
      split; [by right|done].
Qed.

Lemma setup_loop_raises self p st others :
  objs st !! self = Some p →
  constructed st others →
  conflicting st others (Plugin.keyword p) →
  ∃ msg, setup_loop self others st = (inl (PluginError msg), st).
Proof.
  intros Hp. induction others as [|[other|kw] rest IH]; intros Hc Hex; simpl.
  - destruct Hex as (l & o & Hl & _). by apply elem_of_nil in Hl.
  - destruct (Hc other) as [o Ho]; [by left|].
    rewrite (bind_inr _ _ _ _ _ (getattr_run other _ o st Ho)).
    rewrite (bind_inr _ _ _ _ _ (getattr_run self _ p st Hp)).
    destruct (decide (Plugin.keyword o = Plugin.keyword p)) as [Heq|Hne].
    + by eexists.
    + apply IH.
      * intros l Hl. apply Hc. by right.
      * destruct Hex as (l & o' & Hl & Ho' & Hk).
        apply elem_of_cons in Hl as [[= ->]|Hl]; [congruence|].
        by exists l, o'.
  - apply IH.
    + intros l Hl. apply Hc. by right.
    + destruct Hex as (l & o' & Hl & Ho' & Hk).
      apply elem_of_cons in Hl as [?|Hl]; [done|].
      by exists l, o'.
Qed.

Lemma setup_loop_raised self p st others msg st' :
  objs st !! self = Some p →
  constructed st others →
  setup_loop self others st = (inl (PluginError msg), st') →
  conflicting st others (Plugin.keyword p).
Proof.
  intros Hp. induction others as [|[other|kw] rest IH]; intros Hc; simpl.
  - done.
  - destruct (Hc other) as [o Ho]; [by left|].
    rewrite (bind_inr _ _ _ _ _ (getattr_run other _ o st Ho)).
    rewrite (bind_inr _ _ _ _ _ (getattr_run self _ p st Hp)).
    destruct (decide (Plugin.keyword o = Plugin.keyword p)) as [Heq|Hne].
    + intros _. exists other, o. split; [by left|done].
    + intros Hr. destruct IH as (l & o' & Hl & Ho' & Hk); [|done|].
      * intros l Hl. apply Hc. by right.
      * exists l, o'. split; [by right|done].
  - intros Hr. destruct IH as (l & o' & Hl & Ho' & Hk); [|done|].
    + intros l Hl. apply Hc. by right.
    + exists l, o'. split; [by right|done].
Qed.

(** C3: [setup] raises [PluginError] exactly when an installed
    [CouchDBPlugin] has the keyword of this one, and returns otherwise; so it
    returns next to one instance with another keyword, and next to plugins of
    other classes whatever their keywords. *)
Theorem setup_raises_iff_keyword_taken self p app st :
  objs st !! self = Some p →
  constructed st (plugins app) →
  ((∃ msg, setup self app st = (inl (PluginError msg), st)) ↔
   conflicting st (plugins app) (Plugin.keyword p)) ∧
  (¬ conflicting st (plugins app) (Plugin.keyword p) →
   setup self app st = (inr tt, st)) ∧
  (∀ other o,
     plugins app = [PCouchDB other] →
     objs st !! other = Some o →
     Plugin.keyword o ≠ Plugin.keyword p →
     setup self app st = (inr tt, st)) ∧
  ((∀ r, r ∈ plugins app → ∃ kw, r = POther kw) →
   setup self app st = (inr tt, st)).
Proof.
  intros Hp Hc. unfold setup.
  assert (Hok : ¬ conflicting st (plugins app) (Plugin.keyword p) →
                setup_loop self (plugins app) st = (inr tt, st))
    by (by apply setup_loop_returns).
  split; [|split; [done|split]].
  - split.
    + intros [msg Hr]. by apply (setup_loop_raised self p st _ msg st).
    + by apply setup_loop_raises.
  - intros other o Hpl Ho Hne. apply Hok.
    intros (l & o' & Hl & Ho' & Hk). rewrite Hpl in Hl.
    apply list_elem_of_singleton in Hl as [= ->]. congruence.
  - intros Hothers. apply Hok.
    intros (l & o' & Hl & _). by destruct (Hothers _ Hl).
Qed.

(** *** Construction *)

(** C8, as the code has it: [__init__] checks nothing.  It returns for every
    keyword, the empty and the blank ones included, and stores the keyword it
    was given as the attribute ([db] when none was given). *)
Theorem init_stores_any_keyword self db_name server_name keyword st :
  ∃ st',
    __init__ self db_name server_name keyword st = (inr tt, st') ∧
    objs st' !! self =
      Some {| Plugin.server_name := default (VStr "") server_name;
              Plugin.db_name := db_name;
              Plugin.keyword := default (VStr "db") keyword |} ∧
    world st' = world st ∧ log st' = log st.
Proof.
  eexists. split; [done|]. simpl. by rewrite lookup_insert_eq.
Qed.

(** *** The attributes are read only *)

Lemma keeps_objs_ret {A : Type} (a : A) : keeps_objs (mret a : M A).
Proof. by intros st. Qed.

Lemma keeps_objs_raise {A : Type} e : keeps_objs (raise e : M A).
Proof. by intros st. Qed.

Lemma keeps_objs_getattr {A : Type} self (field : CouchDBPlugin → A) :
  keeps_objs (getattr self field).
Proof. intros st. unfold getattr. by destruct (objs st !! self). Qed.

Lemma keeps_objs_extern {A : Type} ev (op : World → (Exn + A) * World) :
  keeps_objs (extern ev op).
Proof. intros st. unfold extern. by destruct (op (world st)). Qed.

Lemma keeps_objs_bind {A B : Type} (m : M A) (k : A → M B) :
  keeps_objs m → (∀ a, keeps_objs (k a)) → keeps_objs (x ← m; k x).
Proof.
  intros Hm Hk st. unfold_M. specialize (Hm st).
  destruct (m st) as [[e|a] st']; simpl in *; [done|].
  by rewrite Hk.
Qed.

Lemma keeps_objs_get_server self sn : keeps_objs (get_server self sn).
Proof.
  unfold get_server. apply keeps_objs_bind.
  - destruct (decide _); [apply keeps_objs_getattr|apply keeps_objs_ret].
  - intros a. apply keeps_objs_extern.
Qed.

Lemma keeps_objs_get_database self dbn server sn :
  keeps_objs (get_database self dbn server sn).
Proof.
  unfold get_database. apply keeps_objs_bind.
  { destruct (decide _); [apply keeps_objs_getattr|apply keeps_objs_ret]. }
  intros d. apply keeps_objs_bind.
  { destruct server; [apply keeps_objs_ret|apply keeps_objs_get_server]. }
  intros srv. apply keeps_objs_bind; [apply keeps_objs_extern|].
  intros present. destruct (negb present); apply keeps_objs_extern.
Qed.

Lemma keeps_objs_setup_loop self others : keeps_objs (setup_loop self others).
Proof.
  induction others as [|[other|kw] rest IH]; simpl.
  - apply keeps_objs_ret.
  - apply keeps_objs_bind; [apply keeps_objs_getattr|]. intros ok.
    apply keeps_objs_bind; [apply keeps_objs_getattr|]. intros sk.
    destruct (decide _); [apply keeps_objs_raise|done].
  - done.
Qed.

Lemma keeps_objs_conf_get conf key d :
  keeps_objs d → keeps_objs (conf_get conf key d).
Proof.
  intros Hd. destruct conf; simpl; [|apply keeps_objs_raise].
  apply keeps_objs_bind; [done|]. intros v. apply keeps_objs_ret.
Qed.

Lemma keeps_objs_apply self callback context :
  keeps_objs (apply self callback context).
Proof.
  unfold apply. cbv zeta.
  repeat (apply keeps_objs_bind;
          [apply keeps_objs_conf_get, keeps_objs_getattr|intros ?]).
  destruct (negb _); apply keeps_objs_ret.
Qed.

Lemma keeps_objs_invoke c args kwargs : keeps_objs (invoke c args kwargs).
Proof.
  revert kwargs. induction c as [f|self sn dbn kw callback IH]; intros kwargs.
  - intros st. simpl. by destruct (body f args kwargs (world st)).
  - simpl. apply keeps_objs_bind; [apply keeps_objs_get_server|]. intros couch.
    apply keeps_objs_bind; [apply keeps_objs_get_database|]. intros db.
    destruct kw; [apply keeps_objs_raise|apply IH|apply keeps_objs_raise].
Qed.

(** C9: no operation of the plugin assigns to an attribute: [get_server],
    [get_database], [setup], [apply], [close] and every call of a callable,
    the closures of [apply] included, leave the attributes of every instance
    as they are, so an instance keeps the three values [__init__] stored. *)
Theorem operations_keep_configuration self st :
  (∀ sn, objs (get_server self sn st).2 = objs st) ∧
  (∀ dbn server sn, objs (get_database self dbn server sn st).2 = objs st) ∧
  (∀ app, objs (setup self app st).2 = objs st) ∧
  (∀ callback context, objs (apply self callback context st).2 = objs st) ∧
  objs (close self st).2 = objs st ∧
  (∀ c args kwargs, objs (invoke c args kwargs st).2 = objs st) ∧
  (∀ db_name server_name keyword c args kwargs,
     let built := (__init__ self db_name server_name keyword st).2 in
     objs (invoke c args kwargs built).2 !! self =
       Some {| Plugin.server_name := default (VStr "") server_name;
               Plugin.db_name := db_name;
               Plugin.keyword := default (VStr "db") keyword |}).
Proof.
  repeat split.
  - intros sn. apply keeps_objs_get_server.
  - intros dbn server sn. apply keeps_objs_get_database.
  - intros app. apply keeps_objs_setup_loop.
  - intros callback context. apply keeps_objs_apply.
  - intros c args0 kwargs. apply keeps_objs_invoke.
  - intros dbn sn kw c args0 kwargs built. rewrite keeps_objs_invoke.
    subst built. simpl. by rewrite lookup_insert_eq.
Qed.

End Properties.

(** ** The properties on the small client library *)

(** [show(item, db)] bound by the plugin of the usage example and called
    with an item on a server without databases. *)
Lemma wrapper_resolves_once_and_injects_witness :
  ∃ wrapper,
    apply 1 (Func Mock.show) (Mock.route Mock.show) Mock.st0
      = (inr wrapper, Mock.st0) ∧
    invoke wrapper Mock.item ∅ Mock.st0 =
      (inr (ODatabase Mock.handle),
       {| objs := objs Mock.st0; world := ["my_db"];
          log := [EConnect (VStr Mock.url); EContains Mock.url (VStr "my_db");
                  ECreate Mock.url (VStr "my_db");
                  ECall Mock.show Mock.item {[ "db" := ODatabase Mock.handle ]}] |}).
Proof.
  destruct (wrapper_resolves_once_and_injects 1 Mock.my_plugin (Func Mock.show)
              (Mock.route Mock.show) ∅ "db" Mock.st0)
    as [wrapper [Happ Hcall]].
  - reflexivity.
  - reflexivity.
  - reflexivity.
  - simpl. apply list_elem_of_In. simpl. auto.
  - exists wrapper. split; [exact Happ|].
    destruct (Hcall Mock.st0 Mock.url [] false [] Mock.handle ["my_db"] Mock.item ∅)
      as [Hrun _]; try reflexivity.
    rewrite Hrun. reflexivity.
Defined.

(** [index( **db)] is left alone by the same plugin. *)
Lemma apply_returns_callback_without_keyword_witness :
  ∃ bound,
    apply 1 (Func Mock.index) (Mock.route Mock.index) Mock.st0
      = (inr bound, Mock.st0) ∧
    bound = Func Mock.index ∧
    invoke bound [] ∅ Mock.st0 =
      (inr (OVal VNone),
       {| objs := objs Mock.st0; world := []; log := [ECall Mock.index [] ∅] |}).
Proof.
  destruct (apply_returns_callback_without_keyword 1 Mock.my_plugin (Func Mock.index)
              (Mock.route Mock.index) ∅ Mock.st0)
    as [bound [Happ [Hsame Hcall]]]; try reflexivity.
  exists bound. split; [exact Happ|]. split; [exact Hsame|].
  rewrite (Hcall Mock.index [] ∅ Mock.st0 eq_refl). reflexivity.
Defined.

(** The second plugin installs next to the first and next to a plugin of
    another class that uses its keyword. *)
Lemma setup_raises_iff_keyword_taken_witness :
  setup 2 Mock.app Mock.st2 = (inr tt, Mock.st2) ∧
  ∃ msg, setup 1 Mock.app Mock.st2 = (inl (PluginError msg), Mock.st2).
Proof.
  assert (Hc : constructed Mock.st2 (plugins Mock.app)).
  { intros l Hl. apply list_elem_of_In in Hl. unfold Mock.app in Hl. simpl in Hl.
    destruct Hl as [Hl|[Hl|[]]]; [discriminate|]. injection Hl as <-.
    exists Mock.my_plugin. reflexivity. }
  split.
  - destruct (setup_raises_iff_keyword_taken 2 Mock.second_plugin Mock.app Mock.st2)
      as (_ & Hok & _); [reflexivity|exact Hc|].
    apply Hok.
    intros (l & o & Hl & Ho & Hk). apply list_elem_of_In in Hl.
    unfold Mock.app in Hl. simpl in Hl.
    destruct Hl as [Hl|[Hl|[]]]; [discriminate|]. injection Hl as <-.
    vm_compute in Ho. injection Ho as <-. discriminate.
  - destruct (setup_raises_iff_keyword_taken 1 Mock.my_plugin Mock.app Mock.st2)
      as (Hiff & _); [reflexivity|exact Hc|].
    apply Hiff.
    exists 1%positive, Mock.my_plugin. split; [|split; reflexivity].
    apply list_elem_of_In. unfold Mock.app. simpl. auto.
Defined.

(** The database is created on a server that has none and looked up on one
    that has it. *)
Lemma wrapper_creates_or_fetches_witness :
  invoke (Wrapper 1 VNone VNone (VStr "db") (Func Mock.show)) Mock.item ∅ Mock.st0 =
    invoke (Func Mock.show) Mock.item {[ "db" := ODatabase Mock.handle ]}
      (after Mock.st0 ["my_db"]
         [EConnect (VStr Mock.url); EContains Mock.url (VStr "my_db");
          ECreate Mock.url (VStr "my_db")]).
Proof.
  apply (wrapper_creates_or_fetches 1 Mock.my_plugin VNone VNone "db" (Func Mock.show)
           Mock.item ∅ Mock.st0 Mock.url [] [] Mock.handle ["my_db"]);
    reflexivity.
Defined.

(** A route that overrides the keyword alone gets the handle as [item],
    from the server and the database of the plugin. *)
Lemma apply_route_settings_witness :
  apply 1 (Func Mock.show) (Mock.route_item Mock.show) Mock.st0 =
    (inr (Wrapper 1 (VStr Mock.url) (VStr "my_db") (VStr "item") (Func Mock.show)),
     Mock.st0).
Proof.
  exact (proj1 (apply_route_settings 1 Mock.my_plugin (Func Mock.show)
                  (Mock.route_item Mock.show) {[ "keyword" := VStr "item" ]} Mock.st0
                  eq_refl eq_refl)).
Defined.

(** A request with a stray keyword argument: it reaches [show] next to the
    handle. *)
Lemma wrapper_passes_arguments_through_witness :
  invoke (Wrapper 1 VNone VNone (VStr "db") (Func Mock.show)) Mock.item
         {[ "page" := OVal (VInt 2) ]} Mock.st0 =
    invoke (Func Mock.show) Mock.item
      (<[ "db" := ODatabase Mock.handle ]> {[ "page" := OVal (VInt 2) ]})
      (after Mock.st0 ["my_db"]
         [EConnect (VStr Mock.url); EContains Mock.url (VStr "my_db");
          ECreate Mock.url (VStr "my_db")]).
Proof.
  pose proof (wrapper_passes_arguments_through 1 VNone VNone "db" (Func Mock.show)
                Mock.item {[ "page" := OVal (VInt 2) ]} Mock.st0) as H.
  rewrite (resolve_returns 1 Mock.my_plugin VNone VNone Mock.st0 Mock.url []
             false [] Mock.handle ["my_db"]) in H by reflexivity.
  exact (proj1 H).
Defined.

(** A database without a name cannot be created: the error of the server
    comes out and [show] is not called. *)
Lemma wrapper_propagates_resource_errors_witness :
  invoke (Wrapper 1 VNone (VStr "") (VStr "db") (Func Mock.show)) Mock.item ∅ Mock.st0 =
    (inl (Raised Mock.ServerError),
     {| objs := objs Mock.st0; world := [];
        log := [EConnect (VStr Mock.url); EContains Mock.url (VStr "");
                ECreate Mock.url (VStr "")] |}).
Proof.
  apply (wrapper_propagates_resource_errors 1 Mock.my_plugin VNone (VStr "") (VStr "db")
           (Func Mock.show) Mock.item ∅ Mock.st0 Mock.ServerError []).
  - reflexivity.
  - apply (create_raises (api := Mock.couch) _ _ _ Mock.url [] []); reflexivity.
Defined.

(** [index( **db)] would take a [db] keyword argument, and gets none. *)
Lemma apply_ignores_catch_all_witness :
  apply 1 (Func Mock.index) (Mock.route Mock.index) Mock.st0
    = (inr (Func Mock.index), Mock.st0).
Proof.
  apply (apply_ignores_catch_all 1 Mock.my_plugin (Func Mock.index)
           (Mock.route Mock.index) ∅ "db" "db" Mock.st0); try reflexivity.
  simpl. intros H. apply list_elem_of_In in H. exact H.
Defined.

(** C8 as stated fails: the constructor returns for the empty keyword and
    for one of two spaces, and stores them. *)
Lemma init_accepts_blank_keyword :
  blank "" = true ∧ blank "  " = true ∧
  ¬ (∀ kw, blank kw = true →
       ∃ e st', __init__ 1 (VStr "my_db") None (Some (VStr kw)) Mock.st0 = (inl e, st')) ∧
  (∀ kw, kw ∈ [""; "  "] →
     ∃ st', __init__ 1 (VStr "my_db") None (Some (VStr kw)) Mock.st0 = (inr tt, st') ∧
            Plugin.keyword <$> objs st' !! 1%positive = Some (VStr kw)).
Proof.
  split; [reflexivity|]. split; [reflexivity|]. split.
  - intros H. destruct (H "" eq_refl) as (e & st' & Hrun). discriminate.
  - intros kw _. eexists. split; [reflexivity|].
    simpl. by rewrite lookup_insert_eq.
Qed.

(** ** Further properties of the methods *)

Section Further.
Context `{api : CouchDB}.

Implicit Types (self : loc) (p : CouchDBPlugin) (st : state) (c callback : callable).
Implicit Types (args : list object) (kwargs : gmap string object).

Ltac run_M :=
  unfold mbind, M_bind, bind, mret, M_ret, ret, raise, getattr, extern in *.

(** *** [get_database] on its own *)

(** Called without a server, [get_database] of a constructed plugin does what
    the closure does in two steps: it connects to [server_name] (the attribute
    when that is [None]) and resolves the name on the server obtained. *)
Theorem get_database_connects_when_no_server self p dbn sn st :
  objs st !! self = Some p →
  get_database self dbn None sn st = resolve self sn dbn st.
Proof.
  intros Hp. unfold resolve.
  destruct (get_server self sn st) as [[e|srv] st1] eqn:Hs.
  - rewrite (bind_inl _ _ _ _ _ Hs). unfold get_database.
    rewrite (bind_inr _ _ st (effective dbn (Plugin.db_name p)) st).
    2:{ unfold effective. destruct (decide (dbn = VNone)); [|done].
        by apply getattr_run. }
    by rewrite (bind_inl _ _ _ _ _ Hs).
  - assert (Hp1 : objs st1 !! self = Some p).
    { pose proof (keeps_objs_get_server self sn st) as Hk.
      rewrite Hs in Hk. simpl in Hk. by rewrite Hk. }
    rewrite (bind_inr _ _ _ _ _ Hs).
    rewrite (get_database_run self p dbn srv VNone st1 Hp1).
    unfold get_database.
    rewrite (bind_inr _ _ st (effective dbn (Plugin.db_name p)) st).
    2:{ unfold effective. destruct (decide (dbn = VNone)); [|done].
        by apply getattr_run. }
    by rewrite (bind_inr _ _ _ _ _ Hs).
Qed.

(** With a server given, [get_database] never constructs another one and
    does not look at [server_name]. *)
Theorem get_database_uses_given_server self dbn srv sn sn' st :
  get_database self dbn (Some srv) sn st = get_database self dbn (Some srv) sn' st ∧
  ∃ evs : list event,
    log (get_database self dbn (Some srv) sn st).2 = (log st ++ evs)%list ∧
         Forall (λ ev, ¬ is_connect ev) evs.
Proof.
  split; [done|].
  unfold get_database. run_M.
  destruct (decide (dbn = VNone)) as [Hn|Hn].
  - destruct (objs st !! self) as [p|].
    2:{ exists []. simpl. by rewrite app_nil_r. }
    simpl.
    destruct (server_contains srv (Plugin.db_name p) (world st)) as [[err|[]] w1]; simpl.
    + by exists [EContains srv (Plugin.db_name p)]; split; [|repeat constructor; tauto].
    + destruct (server_getitem srv (Plugin.db_name p) w1) as [r w2]. simpl.
      exists [EContains srv (Plugin.db_name p); EGetitem srv (Plugin.db_name p)].
      split; [by rewrite <- app_assoc|repeat constructor; simpl; tauto].
    + destruct (server_create srv (Plugin.db_name p) w1) as [r w2]. simpl.
      exists [EContains srv (Plugin.db_name p); ECreate srv (Plugin.db_name p)].
      split; [by rewrite <- app_assoc|repeat constructor; simpl; tauto].
  - simpl.
    destruct (server_contains srv dbn (world st)) as [[err|[]] w1]; simpl.
    + by exists [EContains srv dbn]; split; [|repeat constructor; tauto].
    + destruct (server_getitem srv dbn w1) as [r w2]. simpl.
      exists [EContains srv dbn; EGetitem srv dbn].
      split; [by rewrite <- app_assoc|repeat constructor; simpl; tauto].
    + destruct (server_create srv dbn w1) as [r w2]. simpl.
      exists [EContains srv dbn; ECreate srv dbn].
      split; [by rewrite <- app_assoc|repeat constructor; simpl; tauto].
Qed.

(** *** Binding and installing issue nothing *)

(** Every case of [apply]. *)
Lemma apply_cases self callback context st :
  apply self callback context st =
  match route_conf context, objs st !! self with
  | CMapping m, Some p =>
      (inr (let keyword := dict_get m "keyword" (Plugin.keyword p) in
            if py_in keyword (args (getargspec (context_callback context)))
            then Wrapper self (dict_get m "server_name" (Plugin.server_name p))
                         (dict_get m "db_name" (Plugin.db_name p)) keyword callback
            else callback), st)
  | _, _ => (inl AttributeError, st)
  end.
Proof.
  destruct (route_conf context) as [m|b] eqn:Hconf.
  - destruct (objs st !! self) as [p|] eqn:Hp.
    + by apply apply_run.
    + unfold apply, conf_get. rewrite Hconf. run_M. cbv beta zeta. by rewrite Hp.
  - unfold apply, conf_get. rewrite Hconf. by destruct (objs st !! self).
Qed.

(** [apply] makes no connection: whatever it is given and whether it returns
    or raises, the state after it (objects, world and log) is the state
    before. *)
Theorem apply_leaves_state self callback context st :
  (apply self callback context st).2 = st.
Proof.
  rewrite apply_cases.
  by destruct (route_conf context), (objs st !! self).
Qed.

(** [setup] only reads: whether it returns or raises, the state after it
    is the state before. *)
Theorem setup_leaves_state self app st :
  (setup self app st).2 = st.
Proof.
  unfold setup. induction (plugins app) as [|[other|kw] rest IH]; simpl; [done| |done].
  run_M.
  destruct (objs st !! other) as [o|]; [|done].
  destruct (objs st !! self) as [p|]; [|done].
  by destruct (decide _).
Qed.

(** What [apply] returns is the callback it was given or a closure around
    that callback whose keyword is a string among the named parameters of the
    original callback; so the [TypeError] of a closure with another kind of
    keyword cannot come from a closure that [apply] built. *)
Theorem apply_returns_callback_or_closure self callback context st r st' :
  apply self callback context st = (inr r, st') →
  r = callback ∨
  ∃ sn dbn k,
    r = Wrapper self sn dbn (VStr k) callback ∧
    k ∈ args (getargspec (context_callback context)).
Proof.
  rewrite apply_cases.
  destruct (route_conf context) as [m|b]; [|by destruct (objs st !! self)].
  destruct (objs st !! self) as [p|]; [|done]. cbv zeta.
  destruct (py_in _ _) eqn:Hin; intros [= <- <-]; [right|by left].
  unfold py_in in Hin.
  destruct (dict_get m "keyword" (Plugin.keyword p)) as [|k|z] eqn:Hk; try done.
  apply bool_decide_eq_true_1 in Hin. by eexists _, _, k.
Qed.

(** A route without a [couchdb] setting, one whose setting is the empty
    mapping and one whose setting is any other false value are bound alike,
    with the three attributes of the plugin. *)
Theorem apply_without_settings self p callback context st :
  objs st !! self = Some p →
  context_config context !! "couchdb" = None ∨
  context_config context !! "couchdb" = Some (CMapping ∅) ∨
  context_config context !! "couchdb" = Some (CScalar false) →
  apply self callback context st =
    (inr (if py_in (Plugin.keyword p) (args (getargspec (context_callback context)))
          then Wrapper self (Plugin.server_name p) (Plugin.db_name p)
                       (Plugin.keyword p) callback
          else callback), st).
Proof.
  intros Hp Hcfg.
  assert (Hconf : route_conf context = CMapping ∅).
  { unfold route_conf. by destruct Hcfg as [->|[->| ->]]. }
  rewrite (apply_run self p callback context ∅ st Hp Hconf).
  cbv zeta. unfold dict_get. by rewrite !lookup_empty.
Qed.

(** *** Closures around closures *)

(** A closure around a closure resolves its own handle first, then the inner
    one resolves its handle, and the callback gets both; under one and the
    same keyword it gets the inner one.  No other keyword argument changes. *)
Theorem stacked_closures_inject_both
    self1 sn1 dbn1 k1 self2 sn2 dbn2 k2 callback args kwargs st db1 st1 db2 st2 :
  resolve self1 sn1 dbn1 st = (inr db1, st1) →
  resolve self2 sn2 dbn2 st1 = (inr db2, st2) →
  let kwargs' := <[k2 := ODatabase db2]> (<[k1 := ODatabase db1]> kwargs) in
  invoke (Wrapper self1 sn1 dbn1 (VStr k1) (Wrapper self2 sn2 dbn2 (VStr k2) callback))
         args kwargs st
    = invoke callback args kwargs' st2 ∧
  kwargs' !! k2 = Some (ODatabase db2) ∧
  (k1 ≠ k2 → kwargs' !! k1 = Some (ODatabase db1)) ∧
  (∀ k, k ≠ k1 → k ≠ k2 → kwargs' !! k = kwargs !! k).
Proof.
  intros H1 H2 kwargs'. split; [|split; [|split]].
  - rewrite invoke_wrapper, H1, invoke_wrapper. by rewrite H2.
  - apply lookup_insert_eq.
  - intros Hne. unfold kwargs'. rewrite lookup_insert_ne by done.
    apply lookup_insert_eq.
  - intros k Hk1 Hk2. unfold kwargs'. by rewrite !lookup_insert_ne.
Qed.

(** Both instances read the route's one [couchdb] mapping.  A keyword set
    there is the keyword of every instance on that route: two instances then
    wrap the callback twice and pass their handles under the same name, and
    the callback receives the handle of the instance that was applied first. *)
Theorem route_keyword_is_shared a pa b pb callback context conf k st :
  objs st !! a = Some pa →
  objs st !! b = Some pb →
  context_config context !! "couchdb" = Some (CMapping conf) →
  conf !! "keyword" = Some (VStr k) →
  k ∈ args (getargspec (context_callback context)) →
  ∃ inner outer,
    apply a callback context st = (inr inner, st) ∧
    apply b inner context st = (inr outer, st) ∧
    ∀ args kwargs st0 dbb st1 dba st2,
      resolve b (dict_get conf "server_name" (Plugin.server_name pb))
                (dict_get conf "db_name" (Plugin.db_name pb)) st0 = (inr dbb, st1) →
      resolve a (dict_get conf "server_name" (Plugin.server_name pa))
                (dict_get conf "db_name" (Plugin.db_name pa)) st1 = (inr dba, st2) →
      invoke outer args kwargs st0 =
        invoke callback args (<[k := ODatabase dba]> kwargs) st2.
Proof.
  intros Ha Hb Hcfg Hk Hin.
  assert (Hconf : route_conf context = CMapping conf).
  { unfold route_conf. rewrite Hcfg. simpl. case_bool_decide as Hm; [|done].
    subst conf. by rewrite lookup_empty in Hk. }
  assert (Hpy : ∀ attr, py_in (dict_get conf "keyword" attr)
                          (args (getargspec (context_callback context))) = true).
  { intros attr. unfold dict_get. rewrite Hk. simpl. by apply bool_decide_eq_true_2. }
  eexists _, _. split; [|split].
  - rewrite (apply_run a pa callback context conf st Ha Hconf).
    cbv zeta. by rewrite Hpy.
  - rewrite (apply_run b pb _ context conf st Hb Hconf).
    cbv zeta. by rewrite Hpy.
  - intros args0 kwargs st0 dbb st1 dba st2 Hrb Hra.
    unfold dict_get at 3 6. rewrite Hk.
    rewrite invoke_wrapper, Hrb, invoke_wrapper, Hra.
    by rewrite insert_insert_eq.
Qed.

(** *** What one call of the closure can issue *)

(** Every case of a call into the client library. *)
Lemma extern_cases {A : Type} ev (op : World → (Exn + A) * World) st :
  extern ev op st = (lift_result (op (world st)).1, after st (op (world st)).2 [ev]).
Proof. unfold extern. by destruct (op (world st)) as [[e|a] w]. Qed.

Lemma get_server_cases self sn st :
  get_server self sn st = (inl AttributeError, st) ∨
  ∃ s, get_server self sn st = extern (EConnect s) (couchdb_Server s) st.
Proof.
  unfold get_server. destruct (decide (sn = VNone)) as [Hs|Hs].
  - destruct (objs st !! self) as [p|] eqn:Hp.
    + right. exists (Plugin.server_name p).
      by rewrite (bind_inr _ _ _ _ _ (getattr_run self _ p st Hp)).
    + left. apply bind_inl. unfold getattr. by rewrite Hp.
  - right. by exists sn.
Qed.

Lemma get_database_cases self dbn srv sn st :
  get_database self dbn (Some srv) sn st = (inl AttributeError, st) ∨
  ∃ d, get_database self dbn (Some srv) sn st =
       (present ← extern (EContains srv d) (server_contains srv d);
        if negb present
        then extern (ECreate srv d) (server_create srv d)
        else extern (EGetitem srv d) (server_getitem srv d)) st.
Proof.
  unfold get_database. destruct (decide (dbn = VNone)) as [Hd|Hd].
  - destruct (objs st !! self) as [p|] eqn:Hp.
    + right. exists (Plugin.db_name p).
      by rewrite (bind_inr _ _ _ _ _ (getattr_run self _ p st Hp)).
    + left. apply bind_inl. unfold getattr. by rewrite Hp.
  - right. by exists dbn.
Qed.

Lemma after_nil st : after st (world st) [] = st.
Proof. destruct st. unfold after. simpl. by rewrite app_nil_r. Qed.

Lemma resolve_trace self sn dbn st :
  ∃ w evs,
    (resolve self sn dbn st).2 = after st w evs ∧
    resolution_trace evs ∧
    (∀ db, (resolve self sn dbn st).1 = inr db → length evs = 3).
Proof.
  unfold resolve.
  destruct (get_server_cases self sn st) as [Hs|[s Hs]].
  { rewrite (bind_inl _ _ _ _ _ Hs). exists (world st), [].
    rewrite after_nil. split; [done|]. split; [by left|done]. }
  rewrite extern_cases in Hs.
  destruct (couchdb_Server s (world st)) as [[e|srv] w1]; simpl in Hs.
  { rewrite (bind_inl _ _ _ _ _ Hs). exists w1, [EConnect s].
    split; [done|]. split; [|done]. right. exists s. by left. }
  rewrite (bind_inr _ _ _ _ _ Hs).
  destruct (get_database_cases self dbn srv VNone (after st w1 [EConnect s]))
    as [Hd|[d Hd]]; rewrite Hd; clear Hd.
  { exists w1, [EConnect s]. split; [done|]. split; [|done].
    right. exists s. by left. }
  destruct (server_contains srv d w1) as [[e|present] w2] eqn:Hc.
  { rewrite (bind_inl _ _ _ (Raised e) (after st w2 [EConnect s; EContains srv d])).
    2:{ rewrite (extern_inl _ _ _ e w2) by done. by rewrite after_after. }
    exists w2, [EConnect s; EContains srv d]. split; [done|]. split; [|done].
    right. exists s. right. exists srv, d. by left. }
  rewrite (bind_inr _ _ _ present (after st w2 [EConnect s; EContains srv d])).
  2:{ rewrite (extern_inr _ _ _ present w2) by done. by rewrite after_after. }
  destruct present; cbn [negb]; rewrite extern_cases, after_after; simpl.
  - eexists _, _. split; [done|]. split; [|done].
    right. exists s. right. exists srv, d. right. by right.
  - eexists _, _. split; [done|]. split; [|done].
    right. exists s. right. exists srv, d. right. by left.
Qed.

(** A closure whose keyword is not a string resolves and then fails in the
    call of the callback. *)
Lemma invoke_wrapper_not_a_string self sn dbn kw callback args kwargs st db st' :
  (∀ k, kw ≠ VStr k) →
  resolve self sn dbn st = (inr db, st') →
  invoke (Wrapper self sn dbn kw callback) args kwargs st = (inl TypeError, st').
Proof.
  intros Hkw. simpl. unfold resolve. run_M.
  destruct (get_server self sn st) as [[e1|couch] st1]; [done|].
  destruct (get_database self dbn (Some couch) VNone st1) as [[e2|db2] st2]; [done|].
  intros [= -> ->]. destruct kw as [|k|z]; [done| |done]. by destruct (Hkw k).
Qed.

(** Whatever happens in a call of a closure around a function of the
    application, the log gains an initial part of one resolution (at most one
    connect, one membership test and one create or lookup, in this order)
    and, only after a complete one, at most one call of the function, with
    the caller's positional arguments. *)
Theorem closure_issues_one_resolution_at_most self sn dbn kw (f : PyFunction) args kwargs st :
  ∃ evs calls : list event,
    log (invoke (Wrapper self sn dbn kw (Func f)) args kwargs st).2
      = (log st ++ evs ++ calls)%list ∧
    resolution_trace evs ∧
    (calls = [] ∨ ∃ kwargs', calls = [ECall f args kwargs'] ∧ length evs = 3).
Proof.
  destruct (resolve_trace self sn dbn st) as (w & evs & Hst & Htr & Hlen).
  destruct (resolve self sn dbn st) as [[e|db] st1] eqn:Hr; simpl in Hst; subst st1.
  - rewrite (invoke_wrapper_raises _ _ _ _ _ _ _ _ _ _ Hr).
    exists evs, []. rewrite app_nil_r. split; [done|]. split; [done|by left].
  - destruct kw as [|k|z].
    + erewrite invoke_wrapper_not_a_string; [|done|exact Hr].
      exists evs, []. rewrite app_nil_r. split; [done|]. split; [done|by left].
    + rewrite invoke_wrapper, Hr, invoke_func.
      exists evs, [ECall f args (<[k := ODatabase db]> kwargs)].
      split; [simpl; by rewrite app_assoc|]. split; [done|].
      right. eexists. split; [done|]. by apply (Hlen db).
    + erewrite invoke_wrapper_not_a_string; [|done|exact Hr].
      exists evs, []. rewrite app_nil_r. split; [done|]. split; [done|by left].
Qed.

(** *** Construction and installation together *)

(** Two instances constructed one after the other cannot both be installed
    when their keywords are equal, which they are when both are left at the
    default; with different keywords the second installs next to the first. *)
Theorem second_instance_needs_its_own_keyword a b dbn_a sn_a kw_a dbn_b sn_b kw_b st :
  a ≠ b →
  let built := (__init__ b dbn_b sn_b kw_b (__init__ a dbn_a sn_a kw_a st).2).2 in
  let app := {| plugins := [PCouchDB a] |} in
  (default (VStr "db") kw_a = default (VStr "db") kw_b →
   ∃ msg, setup b app built = (inl (PluginError msg), built)) ∧
  (default (VStr "db") kw_a ≠ default (VStr "db") kw_b →
   setup b app built = (inr tt, built)).
Proof.
  intros Hab built app.
  assert (Ha : objs built !! a = Some
                 {| Plugin.server_name := default (VStr "") sn_a;
                    Plugin.db_name := dbn_a;
                    Plugin.keyword := default (VStr "db") kw_a |}).
  { simpl. rewrite lookup_insert_ne by done. apply lookup_insert_eq. }
  assert (Hb : objs built !! b = Some
                 {| Plugin.server_name := default (VStr "") sn_b;
                    Plugin.db_name := dbn_b;
                    Plugin.keyword := default (VStr "db") kw_b |}).
  { simpl. apply lookup_insert_eq. }
  unfold setup. simpl plugins. simpl setup_loop.
  rewrite (bind_inr _ _ _ _ _ (getattr_run a _ _ built Ha)).
  rewrite (bind_inr _ _ _ _ _ (getattr_run b _ _ built Hb)).
  simpl. split; intros Hk.
  - rewrite decide_True by done. by eexists.
  - by rewrite decide_False.
Qed.

(** Installing an instance that is already in [app.plugins] raises: it
    finds itself. *)
Theorem setup_finds_itself self p app st :
  objs st !! self = Some p →
  constructed st (plugins app) →
  PCouchDB self ∈ plugins app →
  ∃ msg, setup self app st = (inl (PluginError msg), st).
Proof.
  intros Hp Hc Hin. apply (setup_loop_raises self p); [done..|].
  by exists self, p.
Qed.

(** *** Names fixed at bind time *)

(** A closure whose two names are not [None] does not read the plugin: it
    runs the same, and leaves the store of attributes as it finds it, whatever
    that store holds, the instance having been constructed again or not at
    all. *)
Theorem closure_with_names_ignores_plugin self sn dbn k (f : PyFunction) args kwargs st o :
  sn ≠ VNone →
  dbn ≠ VNone →
  invoke (Wrapper self sn dbn (VStr k) (Func f)) args kwargs (with_objs o st) =
    ((invoke (Wrapper self sn dbn (VStr k) (Func f)) args kwargs st).1,
     with_objs o (invoke (Wrapper self sn dbn (VStr k) (Func f)) args kwargs st).2).
Proof.
  intros Hs Hd.
  assert (Hres : resolve self sn dbn (with_objs o st) =
                 ((resolve self sn dbn st).1, with_objs o (resolve self sn dbn st).2)).
  { unfold resolve, get_server, get_database.
    rewrite !decide_False by done. run_M. simpl.
    destruct (couchdb_Server sn (world st)) as [[e|srv] w1]; [done|]. simpl.
    destruct (server_contains srv dbn w1) as [[e|[]] w2]; [done| |]; simpl.
    - by destruct (server_getitem srv dbn w2) as [[e|db] w3].
    - by destruct (server_create srv dbn w2) as [[e|db] w3]. }
  rewrite !invoke_wrapper, Hres.
  destruct (resolve self sn dbn st) as [[e|db] st1]; [done|]. simpl.
  by destruct (body f args (<[k:=ODatabase db]> kwargs) (world st1)) as [[e|v] w].
Qed.

End Further.

(** ** The further properties on the small client library *)

(** [plugin.get_database()] of the plugin of the usage example. *)
Lemma get_database_connects_when_no_server_witness :
  get_database 1 VNone None VNone Mock.st0 = resolve 1 VNone VNone Mock.st0.
Proof.
  apply (get_database_connects_when_no_server 1 Mock.my_plugin). reflexivity.
Defined.

(** What [apply] returns for [show(item, db)] is a closure under [db]. *)
Lemma apply_returns_callback_or_closure_witness :
  Wrapper 1 (VStr Mock.url) (VStr "my_db") (VStr "db") (Func Mock.show) = Func Mock.show ∨
  ∃ sn dbn k,
    Wrapper 1 (VStr Mock.url) (VStr "my_db") (VStr "db") (Func Mock.show)
      = Wrapper 1 sn dbn (VStr k) (Func Mock.show) ∧
    k ∈ args (getargspec (context_callback (Mock.route Mock.show))).
Proof.
  apply (apply_returns_callback_or_closure 1 (Func Mock.show) (Mock.route Mock.show)
           Mock.st0 _ Mock.st0).
  reflexivity.
Defined.

(** A route with [couchdb={}] is bound like one without the setting. *)
Lemma apply_without_settings_witness :
  apply 1 (Func Mock.show)
        {| context_callback := Func Mock.show;
           context_config := {[ "couchdb" := CMapping ∅ ]} |} Mock.st0 =
    (inr (Wrapper 1 (VStr Mock.url) (VStr "my_db") (VStr "db") (Func Mock.show)),
     Mock.st0).
Proof.
  exact (apply_without_settings 1 Mock.my_plugin (Func Mock.show)
           {| context_callback := Func Mock.show;
              context_config := {[ "couchdb" := CMapping ∅ ]} |} Mock.st0
           eq_refl (or_intror (or_introl eq_refl))).
Defined.

(** The closure of the second plugin around the closure of the first. *)
Lemma stacked_closures_inject_both_witness :
  ∃ st',
    invoke (Wrapper 2 VNone VNone (VStr "db2")
              (Wrapper 1 VNone VNone (VStr "db") (Func Mock.show)))
           Mock.item ∅ Mock.st2 =
      invoke (Func Mock.show) Mock.item
        (<[ "db" := ODatabase Mock.handle ]>
           (<[ "db2" := ODatabase ("", "other_db") ]> ∅)) st'.
Proof.
  eexists.
  edestruct (stacked_closures_inject_both 2 VNone VNone "db2" 1 VNone VNone "db"
               (Func Mock.show) Mock.item ∅ Mock.st2) as [Hrun _].
  - vm_compute. reflexivity.
  - vm_compute. reflexivity.
  - exact Hrun.
Defined.

(** With [couchdb={'keyword': 'item'}] both plugins wrap [show]. *)
Lemma route_keyword_is_shared_witness :
  ∃ inner outer,
    apply 1 (Func Mock.show) (Mock.route_item Mock.show) Mock.st2
      = (inr inner, Mock.st2) ∧
    apply 2 inner (Mock.route_item Mock.show) Mock.st2 = (inr outer, Mock.st2).
Proof.
  destruct (route_keyword_is_shared 1 Mock.my_plugin 2 Mock.second_plugin
              (Func Mock.show) (Mock.route_item Mock.show)
              {[ "keyword" := VStr "item" ]} "item" Mock.st2)
    as (inner & outer & Hinner & Houter & _).
  - reflexivity.
  - reflexivity.
  - reflexivity.
  - reflexivity.
  - simpl. apply list_elem_of_In. simpl. auto.
  - exists inner, outer. split; [exact Hinner|exact Houter].
Defined.

(** Two plugins constructed with the default keyword. *)
Lemma second_instance_needs_its_own_keyword_witness :
  ∃ msg,
    setup 2 {| plugins := [PCouchDB 1] |}
      (__init__ 2 (VStr "b") None None (__init__ 1 (VStr "a") None None Mock.st0).2).2 =
    (inl (PluginError msg),
     (__init__ 2 (VStr "b") None None (__init__ 1 (VStr "a") None None Mock.st0).2).2).
Proof.
  assert (Hne : 1%positive ≠ 2%positive) by discriminate.
  exact (proj1 (second_instance_needs_its_own_keyword 1 2 (VStr "a") None None
                  (VStr "b") None None Mock.st0 Hne) eq_refl).
Defined.

(** The first plugin installed a second time. *)
Lemma setup_finds_itself_witness :
  ∃ msg, setup 1 Mock.app Mock.st2 = (inl (PluginError msg), Mock.st2).
Proof.
  apply (setup_finds_itself 1 Mock.my_plugin Mock.app Mock.st2).
  - reflexivity.
  - intros l Hl. apply list_elem_of_In in Hl. unfold Mock.app in Hl. simpl in Hl.
    destruct Hl as [Hl|[Hl|[]]]; [discriminate|]. injection Hl as <-.
    exists Mock.my_plugin. reflexivity.
  - apply list_elem_of_In. unfold Mock.app. simpl. auto.
Defined.

(** The closure with both names given, on a store without any instance. *)
Lemma closure_with_names_ignores_plugin_witness :
  invoke (Wrapper 1 (VStr Mock.url) (VStr "my_db") (VStr "db") (Func Mock.show))
         Mock.item ∅ (with_objs ∅ Mock.st0) =
    ((invoke (Wrapper 1 (VStr Mock.url) (VStr "my_db") (VStr "db") (Func Mock.show))
             Mock.item ∅ Mock.st0).1,
     with_objs ∅ (invoke (Wrapper 1 (VStr Mock.url) (VStr "my_db") (VStr "db")
                            (Func Mock.show)) Mock.item ∅ Mock.st0).2).
Proof.
  apply (closure_with_names_ignores_plugin 1 (VStr Mock.url) (VStr "my_db") "db"
           Mock.show Mock.item ∅ Mock.st0 ∅); discriminate.
Defined.
